(** * Credential exchange of the learner credential wallet

    A shallow embedding of [app/lib/credentialRequest.ts] (request
    classification and the [requestCredential] flow) and of the list item
    renderer of [app/screens/ShareHomeScreen/ShareHomeScreen.tsx], with the
    properties of the specification stated over them. *)

From Stdlib Require Import Floats.PrimFloat Strings.Ascii Sorting.Sorted.
From stdpp Require Import gmap strings list pretty.

Open Scope string_scope.
Set Warnings "-register-all".

(** * JavaScript values, completions and errors *)

Module Js.

(** What a [throw] carries.  [Error message] is [new Error(message)];
    [TypeError] is what the engine raises on a property read of [null] or
    [undefined] (its text is engine specific and not modelled);
    [SyntaxError] is what [JSON.parse] raises; [Rejection] stands for whatever
    else a collaborator throws or rejects with. *)
Inductive JsError : Type :=
| Error (message : string)
| TypeError
| SyntaxError
| Rejection (reason : string).

(** The outcome of evaluating a call: a normal return or a throw.  For an
    awaited promise, [Return] is fulfilment and [Throw] is rejection. *)
Inductive Result (A : Type) : Type :=
| Return (a : A)
| Throw (e : JsError).
Arguments Return {A} a.
Arguments Throw {A} e.

#[export] Instance Result_ret : MRet Result := fun A a => Return a.
#[export] Instance Result_bind : MBind Result := fun A B f m =>
  match m with
  | Return a => f a
  | Throw e => Throw e
  end.

(** The values an untyped parameter ([unknown], [any]) can hold: the JSON
    values and [undefined].  A number is an IEEE binary64 float, as in
    JavaScript.  An object is the finite map of its own properties. *)
Inductive Value : Type :=
| Undefined
| Null
| Bool (b : bool)
| Number (n : float)
| String (s : string)
| Array (elems : list Value)
| Object (props : gmap string Value).

(** [!!v]: every value is truthy except [undefined], [null], [false], [0],
    [-0], [NaN] and the empty string. *)
Definition to_boolean (v : Value) : bool :=
  match v with
  | Undefined | Null => false
  | Bool b => b
  | Number n => negb (PrimFloat.eqb n 0%float || PrimFloat.is_nan n)
  | String s => negb (String.eqb s EmptyString)
  | Array _ | Object _ => true
  end.

(** [v !== undefined]. *)
Definition defined (v : Value) : bool :=
  match v with
  | Undefined => false
  | _ => true
  end.

(** [o.key] (also [const { key } = o]) on an object given by its own
    properties: a missing property reads as [undefined].  The keys read in
    this development are not properties of [Object.prototype]. *)
Definition read (o : gmap string Value) (key : string) : Value :=
  default Undefined (o !! key).

(** [v[key]] on an arbitrary value, for a [key] that is neither an array
    index nor a property of a built-in prototype ([length] and the like).
    A property read of [null] or [undefined] throws; a primitive or an array
    has no such property. *)
Definition get (v : Value) (key : string) : Result Value :=
  match v with
  | Undefined | Null => Throw TypeError
  | Object props => Return (read props key)
  | Bool _ | Number _ | String _ | Array _ => Return Undefined
  end.

(** [key in o], for own properties. *)
Definition has_key (o : gmap string Value) (key : string) : Prop :=
  is_Some (o !! key).

(** [xs.some(callback)] with a callback that can throw: the elements are
    visited in order, the first truthy answer stops the visit, and a throw
    of the callback is the throw of the call. *)
Fixpoint some {A : Type} (callback : A -> Result bool) (xs : list A) : Result bool :=
  match xs with
  | [] => Return false
  | x :: rest =>
      callback x ≫= λ found : bool,
        if found then Return true else some callback rest
  end.

(** A double quote, for the template literals that quote a value. *)
Definition dquote : string := String.String "034"%char EmptyString.

End Js.

(** * app/lib/credentialRequest.ts: request classification *)

Module CredentialRequest.
Import Js.

(** [type CredentialRequestParams]: the two optional fields are [None] when
    the property is missing or [undefined]. *)
Record CredentialRequestParams : Type := {
  auth_type : option string;
  issuer : string;
  vc_request_url : string;
  challenge : option string;
}.

(** [isCredentialRequestParams(params?)]; [None] is a call without the
    argument. *)
Definition isCredentialRequestParams (params : option (gmap string Value)) : bool :=
  let o := default ∅ params in
  let issuer := read o "issuer" in
  let vc_request_url := read o "vc_request_url" in
  defined issuer && defined vc_request_url.

(** The three protocol names [isChapiCredentialRequest] looks for. *)
Definition protocol_fields : list string := ["OID4VCI"; "OID4VP"; "vcapi"].

(** [isChapiCredentialRequest(request: any)]. *)
Definition isChapiCredentialRequest (request : Value) : Result bool :=
  let o := if to_boolean request then request else Object ∅ in
  credentialRequestOrigin ← get o "credentialRequestOrigin";
  protocols ← get o "protocols";
  let hasChapiCredentialRequestFields :=
    defined credentialRequestOrigin && defined protocols in
  if negb hasChapiCredentialRequestFields then Return false
  else
    hasChapiCredentialRequestProtocolFields ←
      some (fun field => v ← get protocols field; Return (to_boolean v))
           protocol_fields;
    Return hasChapiCredentialRequestProtocolFields.

Section Decoding.

(** [JSON.parse(text)]: the decoded value, or the throw of a text that is
    not JSON.  The argument is converted to a string by the engine, so the
    decoder is taken on values. *)
Variable JSON_parse : Value -> Result Value.

(** [getChapiCredentialRequest(params)]. *)
Definition getChapiCredentialRequest (params : gmap string Value) : Result Value :=
  let requestString := read params "request" in
  if negb (to_boolean requestString) then
    Throw (Error "[getChapiCredentialRequest] The credential request was malformed.")
  else JSON_parse requestString.

(** [isChapiCredentialRequestParams(params)]. *)
Definition isChapiCredentialRequestParams (params : gmap string Value) : Result bool :=
  request ← getChapiCredentialRequest params;
  isChapiCredentialRequest request.

End Decoding.

(** ** The collaborators of [requestCredential] *)

(** The data the exchange hands to and receives from its collaborators.  The
    flow never looks inside them, except for the status of a response and
    the JSON text of a presentation or of a response. *)
Class ExchangeData : Type := {
  OidcConfig : Type;
  DidRecord : Type;
  Presentation : Type;
  Response : Type;
  VerifiableObject : Type;
  Credential : Type;
  (** [response.status] *)
  status : Response -> Z;
  (** [JSON.stringify(requestBody, null, space)] *)
  stringify_presentation : Presentation -> option nat -> string;
  (** [JSON.stringify(response, null, space)] *)
  stringify_response : Response -> option nat -> string;
}.

(** Modelled from the spec: [issuerAuthRegistry] of [app/lib/issuerAuth],
    which is not among the sources.  It is a static mapping from issuer
    identifier to an OIDC configuration; [isInRegistry] tells whether an
    issuer has an entry and [entryFor] returns the entry, failing with a
    not-found error for an issuer without one. *)
Definition isInRegistry `{ExchangeData} (registry : gmap string OidcConfig)
    (issuer : string) : bool :=
  bool_decide (is_Some (registry !! issuer)).

Definition entryFor `{ExchangeData} (registry : gmap string OidcConfig)
    (issuer : string) : Result OidcConfig :=
  match registry !! issuer with
  | Some entry => Return entry
  | None => Throw (Rejection "NotFoundError")
  end.

Section Exchange.

Context `{ExchangeData}.

(** [response.ok]: the status is in the range 200 to 299 (Fetch standard). *)
Definition ok (response : Response) : bool :=
  bool_decide (200 ≤ status response ≤ 299)%Z.

(** What [authorize] resolves to; only the access token is read. *)
Record AuthorizeResult : Type := { accessToken : string }.

(** The second argument of [fetch]. *)
Record RequestInit : Type := {
  method : string;
  headers : gmap string string;
  body : string;
}.

(** The calls that leave the module, indexed by what they return (or
    resolve to).  Each of them can also throw (or reject). *)
Inductive Call : Type -> Type :=
| authorize (config : OidcConfig) : Call AuthorizeResult
| createVerifiablePresentation (didRecord : DidRecord) (challenge : option string) :
    Call Presentation
| fetch (url : string) (init : RequestInit) : Call Response
| parseResponseBody (response : Response) : Call VerifiableObject
| verifyVerifiableObject (verifiableObject : VerifiableObject) : Call bool
| extractCredentialsFrom (verifiableObject : VerifiableObject) :
    Call (option (list Credential)).

(** An argument of a console call. *)
Inductive LogArg : Type :=
| LText (text : string)
| LParams (params : CredentialRequestParams)
| LConfig (config : OidcConfig)
| LError (err : JsError).

(** The effects that return nothing and cannot fail: the three console
    calls and the timer the flow waits on. *)
Inductive Output : Type :=
| console_log (args : list LogArg)
| console_warn (args : list LogArg)
| console_error (args : list LogArg)
| setTimeout (ms : Z).

(** A run of the flow: it ends with a result, or emits an output and goes
    on, or makes a call and goes on from the outcome of the call. *)
Inductive Prog (A : Type) : Type :=
| Done (r : Result A)
| Emit (o : Output) (k : Prog A)
| Invoke {X : Type} (c : Call X) (k : Result X -> Prog A).
Arguments Done {A} r.
Arguments Emit {A} o k.
Arguments Invoke {A X} c k.

Fixpoint bind {A B : Type} (f : A -> Prog B) (p : Prog A) : Prog B :=
  match p with
  | Done (Return a) => f a
  | Done (Throw e) => Done (Throw e)
  | Emit o k => Emit o (bind f k)
  | Invoke c k => Invoke c (fun r => bind f (k r))
  end.

#[global] Instance Prog_ret : MRet Prog := fun A a => Done (Return a).
#[global] Instance Prog_bind : MBind Prog := @bind.

(** [try { p } catch (err) { handler err }] *)
Fixpoint try_catch {A : Type} (p : Prog A) (handler : JsError -> Prog A) : Prog A :=
  match p with
  | Done (Return a) => Done (Return a)
  | Done (Throw e) => handler e
  | Emit o k => Emit o (try_catch k handler)
  | Invoke c k => Invoke c (fun r => try_catch (k r) handler)
  end.

(** [throw e] *)
Definition throw {A : Type} (e : JsError) : Prog A := Done (Throw e).

(** A synchronous call within the module. *)
Definition lift {A : Type} (r : Result A) : Prog A := Done r.

(** A call of a collaborator ([await] it when it is asynchronous): a throw
    or a rejection is thrown at the place of the call. *)
Definition call {X : Type} (c : Call X) : Prog X := Invoke c Done.

Definition emit (o : Output) : Prog unit := Emit o (Done (Return tt)).

(** [if (accessToken)] on [let accessToken], which holds [undefined] or a
    string: the token when it is a non-empty string. *)
Definition truthy_token (accessToken : option string) : option string :=
  match accessToken with
  | Some token => if String.eqb token EmptyString then None else Some token
  | None => None
  end.

Variable registry : gmap string OidcConfig.

(** [requestCredential(credentialRequestParams, didRecord)].  The
    [switch (auth_type)] is the first bound computation; its value is what
    [let accessToken] holds after it ([None] for [undefined]). *)
Definition requestCredential (credentialRequestParams : CredentialRequestParams)
    (didRecord : DidRecord) : Prog (list Credential) :=
  let auth_type := default "code" (auth_type credentialRequestParams) in
  let issuer := issuer credentialRequestParams in
  let vc_request_url := vc_request_url credentialRequestParams in
  let challenge := challenge credentialRequestParams in
  emit (console_log [LText "Credential request params"; LParams credentialRequestParams]);;
  accessToken ←
    (if String.eqb auth_type "code" then
       if negb (isInRegistry registry issuer) then
         throw (Error ("Issuer " +:+ dquote +:+ issuer +:+ dquote
                       +:+ " not found in registry."))
       else
         oidcConfig ← lift (entryFor registry issuer);
         emit (setTimeout 1000);;
         emit (console_log [LText "Launching OIDC auth:"; LConfig oidcConfig]);;
         try_catch
           (emit (console_log [LText "authorize() called with:"; LConfig oidcConfig]);;
            authorized ← call (authorize oidcConfig);
            emit (console_log [LText "Received access token, requesting credential."]);;
            mret (Some (accessToken authorized)))
           (fun err =>
              emit (console_error [LError err]);;
              throw (Error
                "Unable to receive credential: Authorization with the issuer failed"))
     else if String.eqb auth_type "bearer" then
       mret None
     else
       throw (Error ("Unsupported auth_type value: " +:+ dquote +:+ auth_type
                     +:+ dquote +:+ ".")));
  requestBody ← call (createVerifiablePresentation didRecord challenge);
  emit (console_log [LText (stringify_presentation requestBody (Some 2))]);;
  let headers : gmap string string := {[ "Content-Type" := "application/json" ]} in
  let headers :=
    match truthy_token accessToken with
    | Some token => <[ "Authorization" := "Bearer " +:+ token ]> headers
    | None => headers
    end in
  let request :=
    {| method := "POST"; headers := headers;
       body := stringify_presentation requestBody None |} in
  response ← call (fetch vc_request_url request);
  if negb (ok response) then
    emit (console_error
            [LText ("Issuer response (failed): "
                    +:+ stringify_response response (Some 2))]);;
    throw (Error
      "Unable to receive credential: The issuer failed to return a valid response")
  else
    verifiableObject ← call (parseResponseBody response);
    verified ← call (verifyVerifiableObject verifiableObject);
    (if negb verified then
       emit (console_warn [LText "Response was received, but could not be verified"])
     else mret tt);;
    credentials ← call (extractCredentialsFrom verifiableObject);
    match credentials with
    | None =>
        throw (Error "Unable to receive credential: The issuer failed to return a Verifiable Credential (VC) or Verifiable Presentation (VP)")
    | Some credentials => mret credentials
    end.

(** ** Running the flow against its collaborators *)

(** What a run leaves behind, in order: the outputs it emitted and the
    calls it made, each call with its outcome. *)
Inductive Event : Type :=
| Emitted (o : Output)
| Authorized (config : OidcConfig) (r : Result AuthorizeResult)
| Presented (didRecord : DidRecord) (challenge : option string) (r : Result Presentation)
| Submitted (url : string) (init : RequestInit) (r : Result Response)
| Decoded (response : Response) (r : Result VerifiableObject)
| Verified (verifiableObject : VerifiableObject) (r : Result bool)
| Extracted (verifiableObject : VerifiableObject) (r : Result (option (list Credential))).

Definition event_of {X : Type} (c : Call X) : Result X -> Event :=
  match c with
  | authorize config => Authorized config
  | createVerifiablePresentation didRecord challenge => Presented didRecord challenge
  | fetch url init => Submitted url init
  | parseResponseBody response => Decoded response
  | verifyVerifiableObject verifiableObject => Verified verifiableObject
  | extractCredentialsFrom verifiableObject => Extracted verifiableObject
  end.

Definition is_authorization (ev : Event) : bool :=
  match ev with Authorized _ _ => true | _ => false end.
Definition is_presentation (ev : Event) : bool :=
  match ev with Presented _ _ _ => true | _ => false end.
Definition is_submission (ev : Event) : bool :=
  match ev with Submitted _ _ _ => true | _ => false end.
Definition is_decoding (ev : Event) : bool :=
  match ev with Decoded _ _ => true | _ => false end.
Definition is_verification (ev : Event) : bool :=
  match ev with Verified _ _ => true | _ => false end.
Definition is_extraction (ev : Event) : bool :=
  match ev with Extracted _ _ => true | _ => false end.

(** How many events of a kind a trace holds. *)
Definition count (kind : Event -> bool) (trace : list Event) : nat :=
  length (List.filter kind trace).

(** The calls of a trace, without the console output and the timer. *)
Definition calls (trace : list Event) : list Event :=
  List.filter (fun ev => match ev with Emitted _ => false | _ => true end) trace.

(** The error a call of the trace ended with, when it threw. *)
Definition threw (ev : Event) : option JsError :=
  let thrown {A : Type} (r : Result A) : option JsError :=
    match r with
    | Return _ => None
    | Throw e => Some e
    end in
  match ev with
  | Emitted _ => None
  | Authorized _ r => thrown r
  | Presented _ _ r => thrown r
  | Submitted _ _ r => thrown r
  | Decoded _ r => thrown r
  | Verified _ r => thrown r
  | Extracted _ r => thrown r
  end.

(** The errors the collaborators threw during a run. *)
Definition thrown (trace : list Event) : list JsError := omap threw trace.

(** The place of a call in the pipeline of [requestCredential], in the order
    of the source text; an output has no place. *)
Definition stage (ev : Event) : nat :=
  match ev with
  | Emitted _ => 0
  | Authorized _ _ => 1
  | Presented _ _ _ => 2
  | Submitted _ _ _ => 3
  | Decoded _ _ => 4
  | Verified _ _ => 5
  | Extracted _ _ => 6
  end.

Record Outcome (World A : Type) : Type := {
  result : Result A;
  world : World;
  trace : list Event;
}.
Arguments result {World A} _.
Arguments world {World A} _.
Arguments trace {World A} _.

Section Run.

(** The collaborators are any state machine: a call is answered from the
    current state of the world and moves it. *)
Context {World : Type}.
Variable respond : forall X : Type, Call X -> World -> Result X * World.

Fixpoint run {A : Type} (p : Prog A) (w : World) : Outcome World A :=
  match p with
  | Done r => {| result := r; world := w; trace := [] |}
  | Emit o k =>
      let out := run k w in
      {| result := result out; world := world out;
         trace := Emitted o :: trace out |}
  | Invoke c k =>
      let '(r, w') := respond _ c w in
      let out := run (k r) w' in
      {| result := result out; world := world out;
         trace := event_of c r :: trace out |}
  end.

End Run.

End Exchange.

Arguments Done {_ A} r.
Arguments Emit {_ A} o k.
Arguments Invoke {_ A X} c k.
Arguments result {_ World A} _.
Arguments world {_ World A} _.
Arguments trace {_ World A} _.

(** The failures of [requestCredential], by the names the specification
    gives them. *)
Definition IssuerNotRegisteredError (issuer : string) : JsError :=
  Error ("Issuer " +:+ dquote +:+ issuer +:+ dquote +:+ " not found in registry.").
Definition UnsupportedAuthTypeError (auth_type : string) : JsError :=
  Error ("Unsupported auth_type value: " +:+ dquote +:+ auth_type +:+ dquote +:+ ".").
Definition AuthorizationFailedError : JsError :=
  Error "Unable to receive credential: Authorization with the issuer failed".
Definition IssuerResponseError : JsError :=
  Error "Unable to receive credential: The issuer failed to return a valid response".
Definition NoCredentialsReturnedError : JsError :=
  Error "Unable to receive credential: The issuer failed to return a Verifiable Credential (VC) or Verifiable Presentation (VP)".
Definition MalformedRequestError : JsError :=
  Error "[getChapiCredentialRequest] The credential request was malformed.".

End CredentialRequest.

(** * app/screens/ShareHomeScreen/ShareHomeScreen.tsx *)

Module ShareHomeScreen.

(** Modelled from the spec: the [Credential] type of [app/types/credential],
    which is not among the sources.  The issuer of a credential is a bare
    identifier string or an object with an identifier and an optional name;
    the subject may carry the credential it attests, whose name is read
    through optional chaining. *)
Record IssuerObject : Type := {
  issuer_id : string;
  issuer_name : option string;
}.

Inductive Issuer : Type :=
| IssuerId (uri : string)
| IssuerRef (object : IssuerObject).

Record HasCredential : Type := {
  credential_name : option string;
}.

Record Subject : Type := {
  hasCredential : option HasCredential;
}.

Record Credential : Type := {
  id : string;
  credentialSubject : Subject;
  issuer : Issuer;
}.

(** The properties handed to [CredentialItem]; [onSelect] is given by the
    selection it leaves when pressed. *)
Record CredentialItemProps : Type := {
  title : string;
  subtitle : string;
  onSelect : list nat;
  selected : bool;
  checkable : bool;
}.

(** [selected.includes(index)] *)
Definition includes (selected : list nat) (index : nat) : bool :=
  existsb (Nat.eqb index) selected.

(** [toggle(credentialIndex)], as the selection that [setSelected] stores. *)
Definition toggle (selected : list nat) (credentialIndex : nat) : list nat :=
  if includes selected credentialIndex then
    List.filter (fun i => negb (Nat.eqb i credentialIndex)) selected
  else selected ++ [credentialIndex].

(** [renderItem({ item, index })] under the current selection. *)
Definition renderItem (selected : list nat) (item : Credential) (index : nat) :
    CredentialItemProps :=
  let credentialSubject := credentialSubject item in
  let issuer := issuer item in
  let title :=
    default EmptyString (hasCredential credentialSubject ≫= credential_name) in
  let subtitle :=
    match issuer with
    | IssuerId _ => EmptyString
    | IssuerRef object =>
        match issuer_name object with
        | Some name => name
        | None => EmptyString
        end
    end in
  {| title := title;
     subtitle := subtitle;
     onSelect := toggle selected index;
     selected := includes selected index;
     checkable := true |}.

(** Whether a character occurs in a text. *)
Fixpoint occurs (c : ascii) (text : string) : bool :=
  match text with
  | EmptyString => false
  | String.String c' rest => Ascii.eqb c c' || occurs c rest
  end.

(** [keyExtractor(item, index)], the template literal that joins the index
    and the identifier with a dash.  An index of the list is a natural
    number, which the template prints in decimal. *)
Definition keyExtractor (item : Credential) (index : nat) : string :=
  pretty index +:+ "-" +:+ id item.

(** The selection after a sequence of presses on items of the list, from
    the empty selection [useState] starts with. *)
Definition pressed (presses : list nat) : list nat :=
  fold_left toggle presses [].

End ShareHomeScreen.

(** * Fields that hold a value, and truthy protocol entries *)

Module Shape.
Import Js.

(** The key is a property of the object and holds [v], which is not
    [undefined]. *)
Definition holds (bag : gmap string Value) (key : string) (v : Value) : Prop :=
  bag !! key = Some v ∧ v ≠ Undefined.

(** The request is an object that holds [v] under [key]. *)
Definition field (request : Value) (key : string) (v : Value) : Prop :=
  ∃ props, request = Object props ∧ holds props key v.

(** The protocols value is an object with a truthy value under [name]. *)
Definition truthy_in (protocols : Value) (name : string) : Prop :=
  ∃ props v, protocols = Object props ∧ props !! name = Some v ∧ to_boolean v = true.

End Shape.

(** * Test doubles for the scenarios of the specification *)

Module Scenario.
Import Js CredentialRequest.

(** A bag whose [issuer] key is there and holds [undefined]. *)
Definition undefined_issuer : gmap string Value :=
  {[ "issuer" := Undefined; "vc_request_url" := String "https://univ.example/vc" ]}.

(** A CHAPI request whose origin key is there and holds [undefined]. *)
Definition undefined_origin : Value :=
  Object {[ "credentialRequestOrigin" := Undefined;
            "protocols" := Object {[ "vcapi" := String "https://univ.example/exchange" ]} ]}.

(** A CHAPI request whose [protocols] is [null]. *)
Definition null_protocols : Value :=
  Object {[ "credentialRequestOrigin" := String "https://univ.example";
            "protocols" := Null ]}.

(** A CHAPI request that names the [vcapi] protocol. *)
Definition vcapi_request : Value :=
  Object {[ "credentialRequestOrigin" := String "https://univ.example";
            "protocols" := Object {[ "vcapi" := String "https://univ.example/exchange" ]} ]}.

(** A decoder that knows two texts and rejects every other one. *)
Definition decode (text : Value) : Result Value :=
  match text with
  | String "vcapi" => Return vcapi_request
  | String "null" => Return Null
  | _ => Throw SyntaxError
  end.

(** The data of the scenarios: configurations, DID records, presentations,
    verifiable objects and credentials are names; a response is a status and
    a body. *)
#[export] Instance names : ExchangeData := {|
  OidcConfig := string;
  DidRecord := string;
  Presentation := string;
  Response := Z * string;
  VerifiableObject := string;
  Credential := string;
  status := fst;
  stringify_presentation := fun presentation _ => presentation;
  stringify_response := fun response _ => snd response;
|}.

(** The answer each collaborator gives in a scenario. *)
Record Script : Type := {
  authorization : Result AuthorizeResult;
  presentation : Result Presentation;
  submission : Result Response;
  decoding : Result VerifiableObject;
  verification : Result bool;
  extraction : Result (option (list Credential));
}.

(** Collaborators that answer from a script; the world counts the calls
    answered so far. *)
Definition scripted (script : Script) (X : Type) (c : Call X) (answered : nat) :
    Result X * nat :=
  (match c in Call X return Result X with
   | authorize _ => authorization script
   | createVerifiablePresentation _ _ => presentation script
   | fetch _ _ => submission script
   | parseResponseBody _ => decoding script
   | verifyVerifiableObject _ => verification script
   | extractCredentialsFrom _ => extraction script
   end, S answered).

(** The issuer answers 200 with a presentation of two credentials that does
    not verify. *)
Definition unverified : Script := {|
  authorization := Return {| accessToken := "token-1" |};
  presentation := Return "presentation";
  submission := Return (200%Z, "body");
  decoding := Return "vp";
  verification := Return false;
  extraction := Return (Some ["credential-1"; "credential-2"]);
|}.

(** The same, with a response object that is neither a credential nor a
    presentation. *)
Definition nothing_extracted : Script := {|
  authorization := Return {| accessToken := "token-1" |};
  presentation := Return "presentation";
  submission := Return (200%Z, "body");
  decoding := Return "vp";
  verification := Return true;
  extraction := Return None;
|}.

(** The issuer answers 500. *)
Definition server_error : Script := {|
  authorization := Return {| accessToken := "token-1" |};
  presentation := Return "presentation";
  submission := Return (500%Z, "oops");
  decoding := Return "vp";
  verification := Return true;
  extraction := Return (Some ["credential-1"]);
|}.

(** The holder cancels the authorization. *)
Definition cancelled : Script := {|
  authorization := Throw (Rejection "User cancelled flow");
  presentation := Return "presentation";
  submission := Return (200%Z, "body");
  decoding := Return "vp";
  verification := Return true;
  extraction := Return (Some ["credential-1"]);
|}.

(** The presentation cannot be signed. *)
Definition unsigned : Script := {|
  authorization := Return {| accessToken := "token-1" |};
  presentation := Throw (Rejection "no signing key");
  submission := Return (200%Z, "body");
  decoding := Return "vp";
  verification := Return true;
  extraction := Return (Some ["credential-1"]);
|}.

Definition registry : gmap string string := {[ "univ.example" := "oidc-config" ]}.

Definition registered_params : CredentialRequestParams := {|
  auth_type := Some "code";
  issuer := "univ.example";
  vc_request_url := "https://univ.example/vc";
  challenge := None;
|}.

Definition basic_params : CredentialRequestParams := {|
  auth_type := Some "basic";
  issuer := "univ.example";
  vc_request_url := "https://univ.example/vc";
  challenge := None;
|}.

Definition bearer_params : CredentialRequestParams := {|
  auth_type := Some "bearer";
  issuer := "univ.example";
  vc_request_url := "https://univ.example/vc";
  challenge := Some "abc123";
|}.

Definition code_params : CredentialRequestParams := {|
  auth_type := Some "code";
  issuer := "unknown.example";
  vc_request_url := "https://unknown.example/vc";
  challenge := None;
|}.

Definition default_params : CredentialRequestParams := {|
  auth_type := None;
  issuer := "univ.example";
  vc_request_url := "https://univ.example/vc";
  challenge := None;
|}.

End Scenario.

(** * Properties of the request classification *)

Module ClassifierProps.
Import Js CredentialRequest Shape.

Lemma defined_true (v : Value) : defined v = true ↔ v ≠ Undefined.
Proof. destruct v; simpl; split; (congruence || done). Qed.

Lemma defined_read (bag : gmap string Value) (key : string) :
  defined (read bag key) = true ↔ ∃ v, holds bag key v.
Proof.
  unfold read, holds. destruct (bag !! key) as [v|]; simpl.
  - rewrite defined_true. split.
    + intros Hv. by exists v.
    + by intros (v' & [= <-] & Hv).
  - split; [done | by intros (v & ? & _)].
Qed.

(** C7, in the form that holds of the code: [isCredentialRequestParams]
    returns true exactly when both [issuer] and [vc_request_url] are present
    with a value other than [undefined]; it returns false for every bag that
    misses either key, and for a call without a bag. *)
Theorem isCredentialRequestParams_defined (params : option (gmap string Value)) :
  (isCredentialRequestParams params = true ↔
     ∃ bag a b, params = Some bag ∧ holds bag "issuer" a ∧ holds bag "vc_request_url" b)
  ∧ (∀ bag, params = Some bag →
       ¬ has_key bag "issuer" ∨ ¬ has_key bag "vc_request_url" →
       isCredentialRequestParams params = false)
  ∧ (params = None → isCredentialRequestParams params = false).
Proof.
  split; [| split].
  - unfold isCredentialRequestParams. rewrite andb_true_iff, !defined_read.
    destruct params as [bag|]; simpl.
    + split.
      * intros [[a Ha] [b Hb]]. by exists bag, a, b.
      * intros (bag' & a & b & [= <-] & Ha & Hb). eauto.
    + split.
      * intros [[a [Ha _]] _]. by rewrite lookup_empty in Ha.
      * by intros (bag' & a & b & ? & _).
  - intros bag -> Hmiss. unfold isCredentialRequestParams, has_key in *. simpl.
    apply andb_false_iff.
    destruct Hmiss as [Hmiss | Hmiss]; [left | right];
      apply not_true_is_false; rewrite defined_read;
      intros (v & Hv & _); apply Hmiss; by exists v.
  - by intros ->.
Qed.

(** C7 does not hold with presence read as [key in params]: both keys of
    this bag are present, and the bag is refused, because [issuer] holds
    [undefined]. *)
Lemma isCredentialRequestParams_undefined_value :
  has_key Scenario.undefined_issuer "issuer"
  ∧ has_key Scenario.undefined_issuer "vc_request_url"
  ∧ isCredentialRequestParams (Some Scenario.undefined_issuer) = false.
Proof.
  split; [| split].
  - exists Undefined. by vm_compute.
  - exists (String "https://univ.example/vc"). by vm_compute.
  - by vm_compute.
Qed.

Lemma bind_return {A : Type} (m : Result A) : (m ≫= λ a, Return a) = m.
Proof. by destruct m. Qed.

Lemma some_get_object (props : gmap string Value) (names : list string) :
  some (fun field => v ← get (Object props) field; Return (to_boolean v)) names
  = Return (existsb (fun field => to_boolean (read props field)) names).
Proof.
  induction names as [|name names IH]; simpl; [done |].
  destruct (to_boolean (read props name)); simpl; [done | apply IH].
Qed.

Lemma truthy_in_object (props : gmap string Value) (name : string) :
  truthy_in (Object props) name ↔ to_boolean (read props name) = true.
Proof.
  unfold truthy_in, read. split.
  - intros (props' & v & [= <-] & -> & Hv). done.
  - destruct (props !! name) as [v|] eqn:Hname; simpl; [| done].
    intros Hv. by exists props, v.
Qed.

Lemma existsb_truthy (props : gmap string Value) (names : list string) :
  existsb (fun field => to_boolean (read props field)) names = true ↔
  ∃ name, name ∈ names ∧ truthy_in (Object props) name.
Proof.
  rewrite existsb_exists. split; intros (name & Hin & Hname); exists name.
  - split; [by apply list_elem_of_In | by apply truthy_in_object].
  - split; [by apply list_elem_of_In | by apply truthy_in_object].
Qed.

Lemma some_get_primitive (protocols : Value) (names : list string) :
  (∀ field, get protocols field = Return Undefined) →
  some (fun field => v ← get protocols field; Return (to_boolean v)) names = Return false.
Proof.
  intros Hget. induction names as [|name names IH]; simpl; [done |].
  by rewrite Hget.
Qed.

Lemma not_truthy_in_primitive (protocols : Value) (names : list string) :
  (∀ props, protocols ≠ Object props) →
  ¬ ∃ name, name ∈ names ∧ truthy_in protocols name.
Proof. intros Hother (name & _ & props & v & Hobject & _). by destruct (Hother props). Qed.

Lemma probe_true (protocols : Value) (names : list string) :
  some (fun field => v ← get protocols field; Return (to_boolean v)) names = Return true ↔
  ∃ name, name ∈ names ∧ truthy_in protocols name.
Proof.
  destruct protocols as [| |b|n|s|elems|props].
  - split; [by destruct names | by intros ?%not_truthy_in_primitive].
  - split; [by destruct names | by intros ?%not_truthy_in_primitive].
  - rewrite some_get_primitive by done.
    split; [done | by intros ?%not_truthy_in_primitive].
  - rewrite some_get_primitive by done.
    split; [done | by intros ?%not_truthy_in_primitive].
  - rewrite some_get_primitive by done.
    split; [done | by intros ?%not_truthy_in_primitive].
  - rewrite some_get_primitive by done.
    split; [done | by intros ?%not_truthy_in_primitive].
  - rewrite some_get_object, <- existsb_truthy. split; [by intros [= ->] | by intros ->].
Qed.

Lemma probe_false (protocols : Value) (names : list string) :
  protocols ≠ Undefined → protocols ≠ Null →
  (∀ name, name ∈ names → ¬ truthy_in protocols name) →
  some (fun field => v ← get protocols field; Return (to_boolean v)) names = Return false.
Proof.
  intros Hundef Hnull Hnone.
  destruct protocols as [| |b|n|s|elems|props]; try done;
    try (by apply some_get_primitive).
  rewrite some_get_object. f_equal. apply not_true_is_false.
  intros (name & Hin & Hname)%existsb_truthy. by apply (Hnone name).
Qed.

Lemma isChapiCredentialRequest_object (props : gmap string Value) :
  isChapiCredentialRequest (Object props)
  = if defined (read props "credentialRequestOrigin") && defined (read props "protocols")
    then some (fun field => v ← get (read props "protocols") field; Return (to_boolean v))
              protocol_fields
    else Return false.
Proof.
  unfold isChapiCredentialRequest. cbn [to_boolean get mbind Result_bind].
  destruct (defined (read props "credentialRequestOrigin")
            && defined (read props "protocols")); cbn [negb]; [| done].
  apply bind_return.
Qed.

Lemma isChapiCredentialRequest_other (request : Value) :
  (∀ props, request ≠ Object props) → isChapiCredentialRequest request = Return false.
Proof.
  intros Hother. destruct request as [| |b|n|s|elems|props]; try done.
  - by destruct b.
  - unfold isChapiCredentialRequest. by destruct (to_boolean (Number n)).
  - unfold isChapiCredentialRequest. by destruct (to_boolean (String s)).
  - by destruct (Hother props).
Qed.

Lemma holds_read (bag : gmap string Value) (key : string) (v : Value) :
  holds bag key v → read bag key = v.
Proof. intros [Hkey _]. unfold read. by rewrite Hkey. Qed.

(** C8, in the form that holds of the code: [isChapiCredentialRequest]
    returns true exactly when [credentialRequestOrigin] and [protocols] are
    both present with a value other than [undefined] and one of [OID4VCI],
    [OID4VP], [vcapi] has a truthy value in [protocols]; and it returns false
    when no recognized protocol key is truthy, provided [protocols], where
    present, is not [null]. *)
Theorem isChapiCredentialRequest_defined (request : Value) :
  (isChapiCredentialRequest request = Return true ↔
     ∃ origin protocols name,
       field request "credentialRequestOrigin" origin
       ∧ field request "protocols" protocols
       ∧ name ∈ protocol_fields ∧ truthy_in protocols name)
  ∧ ((∀ protocols, field request "protocols" protocols →
        protocols ≠ Null ∧ ∀ name, name ∈ protocol_fields → ¬ truthy_in protocols name) →
     isChapiCredentialRequest request = Return false).
Proof.
  split.
  - split.
    + intros Htrue.
      destruct request as [| |b|n|s|elems|props];
        try (rewrite isChapiCredentialRequest_other in Htrue; [done | by intros ?]).
      rewrite isChapiCredentialRequest_object in Htrue.
      destruct (defined (read props "credentialRequestOrigin")) eqn:Horigin; [| done].
      destruct (defined (read props "protocols")) eqn:Hprotocols; [| done].
      cbn [andb] in Htrue.
      apply defined_read in Horigin as [origin Horigin].
      apply defined_read in Hprotocols as [protocols Hprotocols].
      rewrite (holds_read _ _ _ Hprotocols) in Htrue.
      apply probe_true in Htrue as (name & Hin & Hname).
      exists origin, protocols, name. repeat split; try done; by exists props.
    + intros (origin & protocols & name & (props & -> & Horigin)
              & (props' & [= <-] & Hprotocols) & Hin & Hname).
      rewrite isChapiCredentialRequest_object.
      assert (defined (read props "credentialRequestOrigin") = true) as ->
        by (apply defined_read; eauto).
      assert (defined (read props "protocols") = true) as ->
        by (apply defined_read; eauto).
      cbn [andb]. rewrite (holds_read _ _ _ Hprotocols). apply probe_true. eauto.
  - intros Hnone.
    destruct request as [| |b|n|s|elems|props];
      try (apply isChapiCredentialRequest_other; by intros ?).
    rewrite isChapiCredentialRequest_object.
    destruct (defined (read props "credentialRequestOrigin")); [| done].
    destruct (defined (read props "protocols")) eqn:Hprotocols; [| done].
    cbn [andb]. apply defined_read in Hprotocols as [protocols Hprotocols].
    rewrite (holds_read _ _ _ Hprotocols).
    destruct (Hnone protocols) as [Hnull Hfalsy]; [by exists props |].
    apply probe_false; [by destruct Hprotocols | done | done].
Qed.

(** C8 does not hold of every request.  The first request has both keys and
    a truthy [vcapi] entry, and is refused because the origin holds
    [undefined].  The second has both fields and no truthy protocol key, and
    the check does not return false: reading a protocol key of [null]
    throws. *)
Lemma isChapiCredentialRequest_not_by_presence :
  isChapiCredentialRequest Scenario.undefined_origin = Return false
  ∧ isChapiCredentialRequest Scenario.null_protocols = Throw TypeError.
Proof. split; by vm_compute. Qed.

(** A request that names the [vcapi] protocol is accepted. *)
Example vcapi_request_accepted :
  isChapiCredentialRequest Scenario.vcapi_request = Return true.
Proof. by vm_compute. Qed.

(** A bag with both keys set is a credential request, whatever the values. *)
Example complete_bag_accepted :
  isCredentialRequestParams
    (Some {[ "issuer" := Null; "vc_request_url" := String "https://univ.example/vc" ]})
  = true.
Proof. by vm_compute. Qed.

Section Decoding.

Variable JSON_parse : Value -> Result Value.

(** C3, in the form that holds of the code:
    [isChapiCredentialRequestParams] returns true exactly when the [request]
    field is non-empty, decodes, and the decoded value passes
    [isChapiCredentialRequest]; it returns false exactly when the field
    decodes and the decoded value is refused by [isChapiCredentialRequest];
    when the field is absent or empty it returns nothing and throws the
    malformed-request error, and a failure of the decoder is thrown on. *)
Theorem isChapiCredentialRequestParams_outcomes (params : gmap string Value) :
  let requestString := read params "request" in
  (∀ answer,
     isChapiCredentialRequestParams JSON_parse params = Return answer ↔
     ∃ request,
       to_boolean requestString = true
       ∧ JSON_parse requestString = Return request
       ∧ isChapiCredentialRequest request = Return answer)
  ∧ (to_boolean requestString = false →
     isChapiCredentialRequestParams JSON_parse params = Throw MalformedRequestError)
  ∧ (∀ e, to_boolean requestString = true →
          JSON_parse requestString = Throw e →
          isChapiCredentialRequestParams JSON_parse params = Throw e).
Proof.
  intros requestString.
  unfold isChapiCredentialRequestParams, getChapiCredentialRequest.
  fold requestString.
  destruct (to_boolean requestString) eqn:Htruthy; simpl.
  - split; [| split].
    + intros answer. destruct (JSON_parse requestString) as [request|e]; simpl.
      * split; [by exists request |].
        by intros (request' & _ & [= <-] & Hanswer).
      * split; [done | by intros (request & _ & ? & _)].
    + done.
    + by intros e _ ->.
  - split; [| split].
    + intros answer. split; [done | by intros (request & ? & _)].
    + done.
    + done.
Qed.

End Decoding.

(** C3 does not hold of a bag without a [request] field: the check does not
    return false, it throws. *)
Lemma isChapiCredentialRequestParams_absent_throws :
  read (∅ : gmap string Value) "request" = Undefined
  ∧ isChapiCredentialRequestParams Scenario.decode ∅ = Throw MalformedRequestError
  ∧ isChapiCredentialRequestParams Scenario.decode ∅ ≠ Return false.
Proof. split; [| split]; by vm_compute. Qed.

(** The three outcomes of the check on a decoded field: accepted, refused,
    and the failure of the decoder. *)
Example decoded_request_outcomes :
  isChapiCredentialRequestParams Scenario.decode {[ "request" := String "vcapi" ]}
    = Return true
  ∧ isChapiCredentialRequestParams Scenario.decode {[ "request" := String "null" ]}
    = Return false
  ∧ isChapiCredentialRequestParams Scenario.decode {[ "request" := String "{" ]}
    = Throw SyntaxError.
Proof. repeat split; by vm_compute. Qed.


Lemma probe_throw (protocols : Value) (e : JsError) :
  protocols ≠ Undefined →
  some (fun field => v ← get protocols field; Return (to_boolean v)) protocol_fields
  = Throw e ↔ e = TypeError ∧ protocols = Null.
Proof.
  intros Hdefined. destruct protocols as [| |b|n|s|elems|props]; try done.
  - split; [by intros [= <-] | by intros [-> _]].
  - rewrite some_get_primitive by done. split; [done | by intros [_ ?]].
  - rewrite some_get_primitive by done. split; [done | by intros [_ ?]].
  - rewrite some_get_primitive by done. split; [done | by intros [_ ?]].
  - rewrite some_get_primitive by done. split; [done | by intros [_ ?]].
  - rewrite some_get_object. split; [done | by intros [_ ?]].
Qed.

(** X10: [isChapiCredentialRequest] throws in one case only: the request is an
    object whose [credentialRequestOrigin] is set and whose [protocols] is
    [null]; what it throws then is the [TypeError] of the property read.  On
    every other value, object or not, it returns a boolean. *)
Theorem isChapiCredentialRequest_throws (request : Value) (e : JsError) :
  isChapiCredentialRequest request = Throw e ↔
  e = TypeError
  ∧ (∃ origin, field request "credentialRequestOrigin" origin)
  ∧ field request "protocols" Null.
Proof.
  destruct request as [| |b|n|s|elems|props];
    try (rewrite isChapiCredentialRequest_other by (by intros ?);
         split; [done | by intros (_ & _ & props & ? & _)]).
  rewrite isChapiCredentialRequest_object.
  destruct (defined (read props "credentialRequestOrigin")) eqn:Horigin.
  - destruct (defined (read props "protocols")) eqn:Hprotocols; cbn [andb].
    + apply defined_read in Horigin as [origin Horigin].
      pose proof Hprotocols as [protocols Hheld]%defined_read.
      rewrite probe_throw by (by apply defined_true).
      rewrite (holds_read _ _ _ Hheld). split.
      * intros [-> ->]. split; [done |]. split; [by exists origin, props |].
        by exists props.
      * intros (-> & _ & props' & [= <-] & Hnull). split; [done |].
        destruct Hheld as [Hheld _], Hnull as [Hnull _]. congruence.
    + split; [done |]. intros (_ & _ & props' & [= <-] & Hnull).
      apply not_true_iff_false in Hprotocols. destruct Hprotocols.
      apply defined_read. by exists Null.
  - cbn [andb]. split; [done |]. intros (_ & (origin & props' & [= <-] & Horigin') & _).
    apply not_true_iff_false in Horigin. destruct Horigin.
    apply defined_read. by exists origin.
Qed.

Section DecodedValues.

Variable JSON_parse : Value -> Result Value.

(** X11: a [request] text that decodes to something that is not an object
    ([null], a number, a string, a boolean, an array) is refused with false,
    without an exception. *)
Theorem decoded_non_object_refused (params : gmap string Value) (decoded : Value) :
  to_boolean (read params "request") = true →
  JSON_parse (read params "request") = Return decoded →
  (∀ props, decoded ≠ Object props) →
  isChapiCredentialRequestParams JSON_parse params = Return false.
Proof.
  intros Htruthy Hdecoded Hother.
  unfold isChapiCredentialRequestParams, getChapiCredentialRequest.
  rewrite Htruthy, Hdecoded. by apply isChapiCredentialRequest_other.
Qed.

End DecodedValues.

(** X11 at a [request] text that decodes to [null]. *)
Lemma decoded_non_object_refused_witness :
  let params : gmap string Value := {[ "request" := String "null" ]} in
  Scenario.decode (read params "request") = Return Null
  ∧ isChapiCredentialRequestParams Scenario.decode params = Return false.
Proof.
  intros params.
  assert (Htruthy : to_boolean (read params "request") = true) by (vm_compute; reflexivity).
  assert (Hdecoded : Scenario.decode (read params "request") = Return Null)
    by (vm_compute; reflexivity).
  split; [exact Hdecoded |].
  apply (decoded_non_object_refused Scenario.decode params Null Htruthy Hdecoded).
  intros props Hobject. discriminate Hobject.
Defined.

End ClassifierProps.

(** * Properties of the exchange *)

Module ExchangeProps.
Import Js CredentialRequest.

(** Where an event can sit in an explicit trace. *)
Ltac inspect Hin :=
  repeat (apply elem_of_cons in Hin as [Hin|Hin]; [try discriminate Hin |]);
  try (by apply elem_of_nil in Hin).

(** An element of an explicit list is found in it. *)
Ltac found := repeat first [apply list_elem_of_here | apply list_elem_of_further].

Section Runs.

Context `{ExchangeData} {World : Type}.
Variable respond : forall X : Type, Call X -> World -> Result X * World.
Variable registry : gmap string OidcConfig.

(** The guard of the code branch makes the registry lookup succeed. *)
Lemma entryFor_registered (issuer : string) :
  isInRegistry registry issuer = true →
  ∃ entry, entryFor registry issuer = Return entry.
Proof.
  unfold isInRegistry, entryFor. intros [entry Hentry]%bool_decide_eq_true.
  exists entry. by rewrite Hentry.
Qed.

(** One step of a run: reduce the flow up to its next call. *)
Ltac reduce :=
  lazy beta iota zeta delta
    [run bind mbind mret Prog_bind Prog_ret try_catch call emit throw lift
     event_of result world trace default from_option id negb
     auth_type issuer vc_request_url challenge].

(** Case analysis on the answer of the next call. *)
Ltac answer :=
  match goal with
  | |- context [respond ?X ?c ?w] =>
      let r := fresh "r" in
      let w' := fresh "w" in
      destruct (respond X c w) as [r w']; destruct r; reduce
  end.

(** Case analysis on the branches the flow itself takes. *)
Ltac branch :=
  match goal with
  | |- context [String.eqb ?a ?b] =>
      let v := eval lazy in (String.eqb a b) in
      match v with
      | true => change (String.eqb a b) with true
      | false => change (String.eqb a b) with false
      end; reduce
  | |- context [String.eqb ?a ?b] => destruct (String.eqb a b) eqn:?; reduce
  | |- context [isInRegistry ?r ?i] => destruct (isInRegistry r i) eqn:?; reduce
  | Hin : isInRegistry ?r ?i = true |- context [entryFor ?r ?i] =>
      let entry := fresh "entry" in
      destruct (entryFor_registered i Hin) as [entry ->]; reduce
  | |- context [ok ?r] => destruct (ok r) eqn:?; reduce
  | |- context [match ?o with Some _ => _ | None => _ end] => is_var o; destruct o; reduce
  | |- context [if ?b then _ else _] => is_var b; destruct b; reduce
  end.

(** Every way a run can go: the outcome [out] is kept apart from what is
    to be shown of it while the flow is followed, and put back at the end
    of each path. *)
Ltac explore out :=
  let Hout := fresh "Hout" in
  assert (Hout : out = out) by reflexivity;
  unfold out at 2 in Hout; clearbody out; revert Hout;
  unfold requestCredential; reduce; repeat first [answer | branch];
  intros ->; reduce.

Lemma ok_status (response : Response) :
  ok response = true ↔ (200 ≤ status response ≤ 299)%Z.
Proof. unfold ok. apply bool_decide_eq_true. Qed.

(** C1: when the verifier answers false, the flow warns, goes on to
    extract from the same object, and returns the credentials the
    extractor answers with; whatever failure follows is the extractor's (a
    throw of its own, or no credentials), never the verification's. *)
Theorem verification_failure_is_advisory (params : CredentialRequestParams)
    (didRecord : DidRecord) (w : World) (verifiableObject : VerifiableObject) :
  let out := run respond (requestCredential registry params didRecord) w in
  Verified verifiableObject (Return false) ∈ trace out →
  Emitted (console_warn [LText "Response was received, but could not be verified"])
    ∈ trace out
  ∧ (∃ r, Extracted verifiableObject r ∈ trace out)
  ∧ (∀ credentials,
       Extracted verifiableObject (Return (Some credentials)) ∈ trace out →
       result out = Return credentials)
  ∧ (∀ e, result out = Throw e →
       Extracted verifiableObject (Throw e) ∈ trace out
       ∨ (Extracted verifiableObject (Return None) ∈ trace out
          ∧ e = NoCredentialsReturnedError)).
Proof.
  intros out. destruct params as [[auth|] issuer url' challenge].
  all: explore out.
  all: intros Hin; inspect Hin.
  all: injection Hin as ->.
  all: split; [found |].
  all: split; [eexists; found |].
  all: split; [intros credentials Hex; inspect Hex; by simplify_eq |].
  all: intros e' [= <-]; first [left; by found | right; split; [found | done]].
Qed.

(** C2: once the extractor has answered, the flow fails with the
    no-credentials error exactly when the answer is [null], and returns the
    sequence it was given otherwise, the empty sequence included. *)
Theorem extraction_decides_outcome (params : CredentialRequestParams)
    (didRecord : DidRecord) (w : World) (verifiableObject : VerifiableObject)
    (answer : option (list Credential)) :
  let out := run respond (requestCredential registry params didRecord) w in
  Extracted verifiableObject (Return answer) ∈ trace out →
  (result out = Throw NoCredentialsReturnedError ↔ answer = None)
  ∧ (∀ credentials, answer = Some credentials → result out = Return credentials)
  ∧ (answer = Some [] → result out = Return []).
Proof.
  intros out. destruct params as [[auth|] issuer url' challenge].
  all: explore out.
  all: intros Hin; inspect Hin.
  all: injection Hin as -> ->.
  all: split; [split; by intros ? |].
  all: split; by intros; simplify_eq.
Qed.

(** X1: a failed authorization is caught and reported as the authorization
    error; nothing is presented or submitted after it. *)
Lemma authorization_failure_aborts (params : CredentialRequestParams)
    (didRecord : DidRecord) (w : World) (config : OidcConfig) (e : JsError) :
  let out := run respond (requestCredential registry params didRecord) w in
  Authorized config (Throw e) ∈ trace out →
  result out = Throw AuthorizationFailedError
  ∧ Emitted (console_error [LError e]) ∈ trace out
  ∧ count is_presentation (trace out) = 0
  ∧ count is_submission (trace out) = 0.
Proof.
  intros out. destruct params as [[auth|] issuer url' challenge].
  all: explore out.
  all: intros Hin; inspect Hin.
  all: injection Hin as -> ->.
  all: split; [done |].
  all: split; [found | done].
Qed.

(** C4: with [auth_type] code and an issuer that is not in the registry,
    the flow fails with the issuer-not-registered error and has made no
    call at all: no authorization, no presentation, no submission. *)
Theorem unregistered_issuer_aborts (params : CredentialRequestParams)
    (didRecord : DidRecord) (w : World) :
  let out := run respond (requestCredential registry params didRecord) w in
  auth_type params = Some "code" →
  isInRegistry registry (issuer params) = false →
  result out = Throw (IssuerNotRegisteredError (issuer params))
  ∧ count is_authorization (trace out) = 0
  ∧ count is_presentation (trace out) = 0
  ∧ count is_submission (trace out) = 0
  ∧ calls (trace out) = []
  ∧ world out = w.
Proof.
  intros out Hcode Habsent. subst out. unfold requestCredential.
  rewrite Hcode, Habsent. by repeat split.
Qed.

(** C5: with [auth_type] bearer the authorization capability is never
    invoked; the first call of the flow builds the presentation from the
    DID record and the challenge of the request, and no presentation is
    built from anything else; and every submission goes to the request URL
    without an [Authorization] header. *)
Theorem bearer_sends_no_authorization (params : CredentialRequestParams)
    (didRecord : DidRecord) (w : World) :
  let out := run respond (requestCredential registry params didRecord) w in
  auth_type params = Some "bearer" →
  count is_authorization (trace out) = 0
  ∧ (∃ r, head (calls (trace out)) = Some (Presented didRecord (challenge params) r))
  ∧ (∀ record nonce r, Presented record nonce r ∈ trace out →
       record = didRecord ∧ nonce = challenge params)
  ∧ (∀ url init r, Submitted url init r ∈ trace out →
       url = vc_request_url params
       ∧ headers init !! "Authorization" = None
       ∧ headers init !! "Content-Type" = Some "application/json").
Proof.
  intros out Hbearer. destruct params as [auth issuer url' challenge].
  simpl in Hbearer. subst auth.
  explore out.
  all: split; [done |].
  all: split; [eexists; reflexivity |].
  all: split; [intros record nonce r' Hin; inspect Hin; by simplify_eq |].
  all: intros url init r' Hin; inspect Hin; by simplify_eq.
Qed.

(** C6: when the submission is answered with a status outside 200..299,
    the flow fails with the issuer response error, the submission is made
    once only, and the response is not decoded, verified or extracted
    from. *)
Theorem non_2xx_is_terminal (params : CredentialRequestParams) (didRecord : DidRecord)
    (w : World) (url : string) (init : RequestInit) (response : Response) :
  let out := run respond (requestCredential registry params didRecord) w in
  Submitted url init (Return response) ∈ trace out →
  ¬ (200 ≤ status response ≤ 299)%Z →
  result out = Throw IssuerResponseError
  ∧ count is_submission (trace out) = 1
  ∧ count is_decoding (trace out) = 0
  ∧ count is_verification (trace out) = 0
  ∧ count is_extraction (trace out) = 0.
Proof.
  intros out. destruct params as [[auth|] issuer url' challenge].
  all: explore out.
  all: intros Hin Hstatus; inspect Hin.
  all: injection Hin as -> -> ->.
  all: try (exfalso; apply Hstatus; by apply ok_status).
  all: by repeat split.
Qed.

(** C10: a request without [auth_type] runs as the same request with
    [auth_type] code: same result, same calls with the same answers, same
    final world (the two runs differ in the one console line that prints
    the request itself).  In particular the issuer has to be in the
    registry, and an unsupported-auth-type error can only come out of the
    run when a collaborator threw that very error. *)
Theorem absent_auth_type_is_code (params : CredentialRequestParams)
    (didRecord : DidRecord) (w : World) :
  let as_code :=
    {| auth_type := Some "code"; issuer := issuer params;
       vc_request_url := vc_request_url params; challenge := challenge params |} in
  let out := run respond (requestCredential registry params didRecord) w in
  let out' := run respond (requestCredential registry as_code didRecord) w in
  auth_type params = None →
  result out = result out'
  ∧ world out = world out'
  ∧ calls (trace out) = calls (trace out')
  ∧ (isInRegistry registry (issuer params) = false →
     result out = Throw (IssuerNotRegisteredError (issuer params)))
  ∧ (∀ value, result out = Throw (UnsupportedAuthTypeError value) →
     UnsupportedAuthTypeError value ∈ thrown (trace out)).
Proof.
  intros as_code out out' Habsent. destruct params as [auth issuer url' challenge].
  simpl in Habsent. subst auth.
  split; [done |]. split; [done |]. split; [done |]. split.
  - subst out as_code out'. unfold requestCredential. reduce.
    intros Hmissing. by rewrite Hmissing.
  - clear as_code out'. explore out.
    all: intros value [= Hvalue]; try discriminate Hvalue.
    all: subst; cbn [thrown omap list_omap threw]; found.
Qed.

(** The lookup behind a successful [entryFor]. *)
Lemma entryFor_Return (issuer : string) (entry : OidcConfig) :
  entryFor registry issuer = Return entry → registry !! issuer = Some entry.
Proof. unfold entryFor. destruct (registry !! issuer); by intros [= ->]. Qed.

(** As [branch], keeping the entry of the registry in view. *)
Ltac branch_entry :=
  match goal with
  | Hin : isInRegistry ?r ?i = true |- context [entryFor ?r ?i] =>
      let entry := fresh "entry" in
      let Hentry := fresh "Hentry" in
      destruct (entryFor_registered i Hin) as [entry Hentry];
      rewrite Hentry; apply entryFor_Return in Hentry; reduce
  end.

Ltac explore_entry out :=
  let Hout := fresh "Hout" in
  assert (Hout : out = out) by reflexivity;
  unfold out at 2 in Hout; clearbody out; revert Hout;
  unfold requestCredential; reduce; repeat first [answer | branch_entry | branch];
  intros ->; reduce.

(** Where a given event, known only by a property, can sit in an explicit
    trace. *)
Ltac locate Hin :=
  repeat (apply elem_of_cons in Hin as [Hin|Hin]; [subst |]);
  try (by apply elem_of_nil in Hin).

(** X2: an [auth_type] other than code and bearer is refused by name, before
    anything is called. *)
Theorem unsupported_auth_type_aborts (params : CredentialRequestParams)
    (didRecord : DidRecord) (w : World) (value : string) :
  let out := run respond (requestCredential registry params didRecord) w in
  auth_type params = Some value →
  value ≠ "code" → value ≠ "bearer" →
  result out = Throw (UnsupportedAuthTypeError value)
  ∧ calls (trace out) = []
  ∧ world out = w.
Proof.
  intros out Hvalue Hcode Hbearer. subst out. unfold requestCredential.
  rewrite Hvalue. reduce.
  apply String.eqb_neq in Hcode, Hbearer. rewrite Hcode, Hbearer. by reduce.
Qed.

(** X3: the calls of a run follow the pipeline: authorization, presentation,
    submission, decoding, verification, extraction, in this order and each
    at most once. *)
Theorem calls_follow_pipeline (params : CredentialRequestParams)
    (didRecord : DidRecord) (w : World) :
  let out := run respond (requestCredential registry params didRecord) w in
  StronglySorted lt (stage <$> calls (trace out)).
Proof.
  intros out. destruct params as [[auth|] issuer url' challenge].
  all: explore out.
  all: cbn [calls List.filter fmap list_fmap stage].
  all: repeat first [apply SSorted_nil | apply SSorted_cons
                    | apply Forall_nil_2 | apply Forall_cons_2 | lia].
Qed.

(** X4: the [Authorization] header of a submission is the bearer token that the
    authorization gave, and it is left out when that token is the empty
    string. *)
Theorem token_becomes_bearer_header (params : CredentialRequestParams)
    (didRecord : DidRecord) (w : World) (config : OidcConfig) (token url : string)
    (init : RequestInit) (r : Result Response) :
  let out := run respond (requestCredential registry params didRecord) w in
  Authorized config (Return {| accessToken := token |}) ∈ trace out →
  Submitted url init r ∈ trace out →
  headers init !! "Authorization"
  = (if String.eqb token EmptyString then None else Some ("Bearer " +:+ token)).
Proof.
  intros out. destruct params as [[auth|] issuer url' challenge].
  all: explore out.
  all: intros Hauthorized Hsubmitted; inspect Hauthorized; inspect Hsubmitted.
  all: injection Hauthorized as -> <-; injection Hsubmitted as -> -> ->.
  all: cbn [truthy_token accessToken headers].
  all: by destruct (String.eqb token EmptyString).
Qed.

(** X5: every submission is a POST of the JSON text of the presentation built
    from the DID record and the challenge of the request, sent to the request
    URL as [application/json]. *)
Theorem submission_carries_presentation (params : CredentialRequestParams)
    (didRecord : DidRecord) (w : World) (url : string) (init : RequestInit)
    (r : Result Response) :
  let out := run respond (requestCredential registry params didRecord) w in
  Submitted url init r ∈ trace out →
  url = vc_request_url params
  ∧ method init = "POST"
  ∧ headers init !! "Content-Type" = Some "application/json"
  ∧ ∃ requestBody,
      Presented didRecord (challenge params) (Return requestBody) ∈ trace out
      ∧ body init = stringify_presentation requestBody None.
Proof.
  intros out. destruct params as [[auth|] issuer url' challenge].
  all: explore out.
  all: intros Hsubmitted; inspect Hsubmitted.
  all: injection Hsubmitted as -> -> ->.
  all: cbn [truthy_token accessToken headers method body vc_request_url
            CredentialRequest.challenge].
  all: split; [done |].
  all: split; [done |].
  all: split; [ try (destruct (String.eqb _ EmptyString)); done |].
  all: eexists; split; [found | done].
Qed.

(** X6: a failure of any collaborator but the authorization leaves the flow as
    it is: it is the result of the run, and the failed call is the last thing
    the run did. *)
Theorem collaborator_failure_ends_run (params : CredentialRequestParams)
    (didRecord : DidRecord) (w : World) (ev : Event) (e : JsError) :
  let out := run respond (requestCredential registry params didRecord) w in
  ev ∈ trace out →
  threw ev = Some e →
  is_authorization ev = false →
  result out = Throw e ∧ last (trace out) = Some ev.
Proof.
  intros out. destruct params as [[auth|] issuer url' challenge].
  all: explore out.
  all: intros Hin Hthrew Hother; locate Hin.
  all: try discriminate Hthrew; try discriminate Hother.
  all: injection Hthrew as ->; by split.
Qed.

(** X7: Credentials come back only through the whole pipeline: they are what
    the extractor answered for the object decoded from the response of the
    submission, which had a status in 200..299 and was verified, with either
    verdict. *)
Theorem success_runs_whole_pipeline (params : CredentialRequestParams)
    (didRecord : DidRecord) (w : World) (credentials : list Credential) :
  let out := run respond (requestCredential registry params didRecord) w in
  result out = Return credentials →
  ∃ init response verifiableObject verdict,
    Submitted (vc_request_url params) init (Return response) ∈ trace out
    ∧ (200 ≤ status response ≤ 299)%Z
    ∧ Decoded response (Return verifiableObject) ∈ trace out
    ∧ Verified verifiableObject (Return verdict) ∈ trace out
    ∧ last (trace out) = Some (Extracted verifiableObject (Return (Some credentials))).
Proof.
  intros out. destruct params as [[auth|] issuer url' challenge].
  all: explore out.
  all: intros Hresult; try discriminate Hresult; injection Hresult as ->.
  all: eexists _, _, _, _.
  all: split; [found |].
  all: split; [by apply ok_status |].
  all: split; [found |].
  all: split; [found | done].
Qed.

(** X8: Authorization, when it happens, is the first call of the run: it is
    given the entry the registry holds for the issuer of the request, after
    the timer of 1000 ms has been waited on. *)
Theorem authorization_opens_run (params : CredentialRequestParams)
    (didRecord : DidRecord) (w : World) (config : OidcConfig)
    (r : Result AuthorizeResult) :
  let out := run respond (requestCredential registry params didRecord) w in
  Authorized config r ∈ trace out →
  registry !! issuer params = Some config
  ∧ take 5 (trace out)
    = [ Emitted (console_log [LText "Credential request params"; LParams params]);
        Emitted (setTimeout 1000);
        Emitted (console_log [LText "Launching OIDC auth:"; LConfig config]);
        Emitted (console_log [LText "authorize() called with:"; LConfig config]);
        Authorized config r ].
Proof.
  intros out. destruct params as [[auth|] issuer url' challenge].
  all: explore_entry out.
  all: intros Hin; inspect Hin.
  all: injection Hin as -> ->.
  all: by split.
Qed.

(** X9: the warning about an unverified response is printed exactly in the runs
    in which the verifier answered false. *)
Theorem warning_marks_failed_verification (params : CredentialRequestParams)
    (didRecord : DidRecord) (w : World) :
  let out := run respond (requestCredential registry params didRecord) w in
  Emitted (console_warn [LText "Response was received, but could not be verified"])
    ∈ trace out
  ↔ ∃ verifiableObject, Verified verifiableObject (Return false) ∈ trace out.
Proof.
  intros out. destruct params as [[auth|] issuer url' challenge].
  all: explore out.
  all: split;
    [ intros Hin; inspect Hin; eexists; found
    | intros [verifiableObject Hin]; inspect Hin; found ].
Qed.

End Runs.

(** ** The theorems at the scenarios of the specification *)

Import Scenario.

(** C1 at the scenario where the issuer answers 200 with a presentation of
    two credentials that does not verify. *)
Lemma verification_failure_is_advisory_witness :
  let out :=
    run (scripted unverified) (requestCredential registry bearer_params "did:example:holder") 0 in
  Verified "vp" (Return false) ∈ trace out
  ∧ Extracted "vp" (Return (Some ["credential-1"; "credential-2"])) ∈ trace out
  ∧ result out = Return ["credential-1"; "credential-2"].
Proof.
  intros out.
  assert (Hverified : Verified "vp" (Return false) ∈ trace out) by (vm_compute; found).
  assert (Hextracted :
    Extracted "vp" (Return (Some ["credential-1"; "credential-2"])) ∈ trace out)
    by (vm_compute; found).
  split; [exact Hverified |]. split; [exact Hextracted |].
  exact (proj1 (proj2 (proj2
    (verification_failure_is_advisory (scripted unverified) registry bearer_params
       "did:example:holder" 0 "vp" Hverified))) _ Hextracted).
Defined.

(** C2 at the scenario where the response object holds no credential. *)
Lemma extraction_decides_outcome_witness :
  let out :=
    run (scripted nothing_extracted)
        (requestCredential registry bearer_params "did:example:holder") 0 in
  Extracted "vp" (Return None) ∈ trace out
  ∧ result out = Throw NoCredentialsReturnedError.
Proof.
  intros out.
  assert (Hextracted : Extracted "vp" (Return None) ∈ trace out) by (vm_compute; found).
  split; [exact Hextracted |].
  exact (proj2 (proj1
    (extraction_decides_outcome (scripted nothing_extracted) registry bearer_params
       "did:example:holder" 0 "vp" None Hextracted)) eq_refl).
Defined.

(** C4 at a code request for an issuer the registry does not know. *)
Lemma unregistered_issuer_aborts_witness :
  let out :=
    run (scripted unverified) (requestCredential registry code_params "did:example:holder") 0 in
  auth_type code_params = Some "code"
  ∧ isInRegistry registry (issuer code_params) = false
  ∧ result out = Throw (IssuerNotRegisteredError "unknown.example")
  ∧ count is_submission (trace out) = 0.
Proof.
  intros out.
  assert (Hcode : auth_type code_params = Some "code") by reflexivity.
  assert (Habsent : isInRegistry registry (issuer code_params) = false)
    by (vm_compute; reflexivity).
  pose proof (unregistered_issuer_aborts (scripted unverified) registry code_params
                "did:example:holder" 0 Hcode Habsent) as (Hresult & _ & _ & Hnone & _).
  split; [exact Hcode |]. split; [exact Habsent |]. split; [exact Hresult | exact Hnone].
Defined.

(** C5 at the bearer scenario of the specification. *)
Lemma bearer_sends_no_authorization_witness :
  let out :=
    run (scripted unverified) (requestCredential registry bearer_params "did:example:holder") 0 in
  auth_type bearer_params = Some "bearer"
  ∧ count is_authorization (trace out) = 0
  ∧ ∃ r, head (calls (trace out))
         = Some (Presented "did:example:holder" (Some "abc123") r).
Proof.
  intros out.
  assert (Hbearer : auth_type bearer_params = Some "bearer") by reflexivity.
  pose proof (bearer_sends_no_authorization (scripted unverified) registry bearer_params
                "did:example:holder" 0 Hbearer) as (Hnone & Hfirst & _).
  split; [exact Hbearer |]. split; [exact Hnone | exact Hfirst].
Defined.

(** C6 at the scenario where the issuer answers 500. *)
Lemma non_2xx_is_terminal_witness :
  let out :=
    run (scripted server_error)
        (requestCredential registry bearer_params "did:example:holder") 0 in
  let init :=
    {| method := "POST";
       headers := {[ "Content-Type" := "application/json" ]};
       body := "presentation" |} in
  Submitted "https://univ.example/vc" init (Return (500%Z, "oops")) ∈ trace out
  ∧ ¬ (200 ≤ status (500%Z, "oops") ≤ 299)%Z
  ∧ result out = Throw IssuerResponseError
  ∧ count is_submission (trace out) = 1
  ∧ count is_decoding (trace out) = 0.
Proof.
  intros out init.
  assert (Hsubmitted :
    Submitted "https://univ.example/vc" init (Return (500%Z, "oops")) ∈ trace out)
    by (vm_compute; found).
  assert (Hstatus : ¬ (200 ≤ status (500%Z, "oops") ≤ 299)%Z) by (simpl; lia).
  pose proof (non_2xx_is_terminal (scripted server_error) registry bearer_params
                "did:example:holder" 0 _ _ _ Hsubmitted Hstatus)
    as (Hresult & Honce & Hdecoded & _).
  split; [exact Hsubmitted |]. split; [exact Hstatus |].
  split; [exact Hresult |]. split; [exact Honce | exact Hdecoded].
Defined.

(** C10 at a request without [auth_type] for a registered issuer: the run
    authorizes and comes back with the credentials, as the code request
    does. *)
Lemma absent_auth_type_is_code_witness :
  let as_code :=
    {| auth_type := Some "code"; issuer := "univ.example";
       vc_request_url := "https://univ.example/vc"; challenge := None |} in
  let out :=
    run (scripted unverified)
        (requestCredential registry default_params "did:example:holder") 0 in
  let out' :=
    run (scripted unverified) (requestCredential registry as_code "did:example:holder") 0 in
  auth_type default_params = None
  ∧ result out = result out'
  ∧ calls (trace out) = calls (trace out')
  ∧ result out = Return ["credential-1"; "credential-2"]
  ∧ count is_authorization (trace out) = 1.
Proof.
  intros as_code out out'.
  assert (Habsent : auth_type default_params = None) by reflexivity.
  pose proof (absent_auth_type_is_code (scripted unverified) registry default_params
                "did:example:holder" 0 Habsent) as (Hresult & _ & Hcalls & _).
  split; [exact Habsent |]. split; [exact Hresult |]. split; [exact Hcalls |].
  split; by vm_compute.
Defined.

(** X1 at a code request whose authorization the holder cancels. *)
Lemma authorization_failure_aborts_witness :
  let out :=
    run (scripted cancelled)
        (requestCredential registry registered_params "did:example:holder") 0 in
  Authorized "oidc-config" (Throw (Rejection "User cancelled flow")) ∈ trace out
  ∧ result out = Throw AuthorizationFailedError
  ∧ count is_submission (trace out) = 0.
Proof.
  intros out.
  assert (Hin :
    Authorized "oidc-config" (Throw (Rejection "User cancelled flow")) ∈ trace out)
    by (vm_compute; found).
  pose proof (authorization_failure_aborts (scripted cancelled) registry
                registered_params "did:example:holder" 0 _ _ Hin)
    as (Hresult & _ & _ & Hnone).
  split; [exact Hin |]. split; [exact Hresult | exact Hnone].
Defined.

(** X2 at a request for basic authentication. *)
Lemma unsupported_auth_type_aborts_witness :
  let out :=
    run (scripted unverified) (requestCredential registry basic_params "did:example:holder") 0 in
  auth_type basic_params = Some "basic"
  ∧ result out = Throw (UnsupportedAuthTypeError "basic")
  ∧ calls (trace out) = [].
Proof.
  intros out.
  assert (Hvalue : auth_type basic_params = Some "basic") by reflexivity.
  assert (Hcode : "basic" ≠ "code") by discriminate.
  assert (Hbearer : "basic" ≠ "bearer") by discriminate.
  pose proof (unsupported_auth_type_aborts (scripted unverified) registry basic_params
                "did:example:holder" 0 "basic" Hvalue Hcode Hbearer)
    as (Hresult & Hcalls & _).
  split; [exact Hvalue |]. split; [exact Hresult | exact Hcalls].
Defined.

(** X4 at the code scenario: the token of the authorization is sent. *)
Lemma token_becomes_bearer_header_witness :
  let out :=
    run (scripted unverified)
        (requestCredential registry registered_params "did:example:holder") 0 in
  let init :=
    {| method := "POST";
       headers := {[ "Authorization" := "Bearer token-1";
                     "Content-Type" := "application/json" ]};
       body := "presentation" |} in
  Authorized "oidc-config" (Return {| accessToken := "token-1" |}) ∈ trace out
  ∧ Submitted "https://univ.example/vc" init (Return (200%Z, "body")) ∈ trace out
  ∧ headers init !! "Authorization" = Some "Bearer token-1".
Proof.
  intros out init.
  assert (Hauthorized :
    Authorized "oidc-config" (Return {| accessToken := "token-1" |}) ∈ trace out)
    by (vm_compute; found).
  assert (Hsubmitted :
    Submitted "https://univ.example/vc" init (Return (200%Z, "body")) ∈ trace out)
    by (vm_compute; found).
  split; [exact Hauthorized |]. split; [exact Hsubmitted |].
  exact (token_becomes_bearer_header (scripted unverified) registry registered_params
           "did:example:holder" 0 _ _ _ _ _ Hauthorized Hsubmitted).
Defined.

(** X5 at the bearer scenario. *)
Lemma submission_carries_presentation_witness :
  let out :=
    run (scripted unverified) (requestCredential registry bearer_params "did:example:holder") 0 in
  let init :=
    {| method := "POST";
       headers := {[ "Content-Type" := "application/json" ]};
       body := "presentation" |} in
  Submitted "https://univ.example/vc" init (Return (200%Z, "body")) ∈ trace out
  ∧ method init = "POST"
  ∧ headers init !! "Content-Type" = Some "application/json".
Proof.
  intros out init.
  assert (Hsubmitted :
    Submitted "https://univ.example/vc" init (Return (200%Z, "body")) ∈ trace out)
    by (vm_compute; found).
  pose proof (submission_carries_presentation (scripted unverified) registry bearer_params
                "did:example:holder" 0 _ _ _ Hsubmitted) as (_ & Hmethod & Htype & _).
  split; [exact Hsubmitted |]. split; [exact Hmethod | exact Htype].
Defined.

(** X6 at a bearer request whose presentation cannot be signed. *)
Lemma collaborator_failure_ends_run_witness :
  let out :=
    run (scripted unsigned) (requestCredential registry bearer_params "did:example:holder") 0 in
  let ev := Presented "did:example:holder" (Some "abc123") (Throw (Rejection "no signing key")) in
  ev ∈ trace out
  ∧ result out = Throw (Rejection "no signing key")
  ∧ last (trace out) = Some ev.
Proof.
  intros out ev.
  assert (Hin : ev ∈ trace out) by (vm_compute; found).
  split; [exact Hin |].
  exact (collaborator_failure_ends_run (scripted unsigned) registry bearer_params
           "did:example:holder" 0 ev (Rejection "no signing key") Hin eq_refl eq_refl).
Defined.

(** X7 at the bearer scenario, where two credentials come back. *)
Lemma success_runs_whole_pipeline_witness :
  let out :=
    run (scripted unverified) (requestCredential registry bearer_params "did:example:holder") 0 in
  result out = Return ["credential-1"; "credential-2"]
  ∧ ∃ init response verifiableObject verdict,
      Submitted "https://univ.example/vc" init (Return response) ∈ trace out
      ∧ (200 ≤ status response ≤ 299)%Z
      ∧ Decoded response (Return verifiableObject) ∈ trace out
      ∧ Verified verifiableObject (Return verdict) ∈ trace out
      ∧ last (trace out)
        = Some (Extracted verifiableObject (Return (Some ["credential-1"; "credential-2"]))).
Proof.
  intros out.
  assert (Hresult : result out = Return ["credential-1"; "credential-2"])
    by (vm_compute; reflexivity).
  split; [exact Hresult |].
  exact (success_runs_whole_pipeline (scripted unverified) registry bearer_params
           "did:example:holder" 0 _ Hresult).
Defined.

(** X8 at the code scenario. *)
Lemma authorization_opens_run_witness :
  let out :=
    run (scripted unverified)
        (requestCredential registry registered_params "did:example:holder") 0 in
  Authorized "oidc-config" (Return {| accessToken := "token-1" |}) ∈ trace out
  ∧ registry !! "univ.example" = Some "oidc-config"
  ∧ trace out !! 1 = Some (Emitted (setTimeout 1000)).
Proof.
  intros out.
  assert (Hauthorized :
    Authorized "oidc-config" (Return {| accessToken := "token-1" |}) ∈ trace out)
    by (vm_compute; found).
  pose proof (authorization_opens_run (scripted unverified) registry registered_params
                "did:example:holder" 0 _ _ Hauthorized) as [Hentry _].
  split; [exact Hauthorized |]. split; [exact Hentry |]. by vm_compute.
Defined.

(** The bearer scenario of the specification: two credentials come back and
    the one submission carries only the content type. *)
Example bearer_scenario :
  let out :=
    run (scripted unverified) (requestCredential registry bearer_params "did:example:holder") 0 in
  result out = Return ["credential-1"; "credential-2"]
  ∧ count is_submission (trace out) = 1
  ∧ count is_authorization (trace out) = 0.
Proof. by vm_compute. Qed.

(** The code scenario with a registered issuer: the token the authorization
    gave is sent as a bearer token. *)
Example code_scenario :
  let params :=
    {| auth_type := Some "code"; issuer := "univ.example";
       vc_request_url := "https://univ.example/vc"; challenge := None |} in
  let out :=
    run (scripted unverified) (requestCredential registry params "did:example:holder") 0 in
  ∃ init r,
    Submitted "https://univ.example/vc" init r ∈ trace out
    ∧ headers init !! "Authorization" = Some "Bearer token-1".
Proof.
  intros params out. eexists _, _. split; [vm_compute; found |]. by vm_compute.
Qed.

End ExchangeProps.

(** * Properties of the share screen *)

Module ShareScreenProps.
Import ShareHomeScreen.

(** C9: the subtitle of a rendered credential is defined for both kinds of
    issuer: it is the name of an issuer object that has one, and the empty
    string for a bare identifier and for an issuer object without a name. *)
Theorem renderItem_subtitle (selected : list nat) (item : Credential) (index : nat) :
  (∀ object name,
     issuer item = IssuerRef object → issuer_name object = Some name →
     subtitle (renderItem selected item index) = name)
  ∧ (∀ uri,
       issuer item = IssuerId uri →
       subtitle (renderItem selected item index) = EmptyString)
  ∧ (∀ object,
       issuer item = IssuerRef object → issuer_name object = None →
       subtitle (renderItem selected item index) = EmptyString).
Proof.
  unfold renderItem. cbn [subtitle]. split; [| split].
  - by intros object name -> ->.
  - by intros uri ->.
  - by intros object -> ->.
Qed.

(** The title falls back to the empty string in the same way. *)
Lemma renderItem_title (selected : list nat) (item : Credential) (index : nat) :
  title (renderItem selected item index)
  = match hasCredential (credentialSubject item) with
    | Some credential => default EmptyString (credential_name credential)
    | None => EmptyString
    end.
Proof. unfold renderItem. cbn [title]. by destruct (hasCredential _). Qed.

(** Pressing an item twice restores a selection that did not hold it. *)
Lemma toggle_twice (selected : list nat) (index : nat) :
  includes selected index = false →
  toggle (toggle selected index) index = selected.
Proof.
  intros Hfresh. unfold toggle at 2. rewrite Hfresh. unfold toggle.
  assert (includes (selected ++ [index]) index = true) as ->.
  { unfold includes. rewrite existsb_app. simpl. rewrite Nat.eqb_refl.
    by rewrite orb_true_r. }
  rewrite List.filter_app. simpl. rewrite Nat.eqb_refl. simpl.
  rewrite app_nil_r. unfold includes in Hfresh.
  induction selected as [|i selected IH]; simpl in *; [done |].
  apply orb_false_iff in Hfresh as [Hi Hrest].
  rewrite Nat.eqb_sym in Hi. rewrite Hi. simpl. by rewrite IH.
Qed.


(** ** The selection *)

Lemma includes_elem_of (selected : list nat) (index : nat) :
  includes selected index = true ↔ index ∈ selected.
Proof.
  unfold includes. rewrite existsb_exists, list_elem_of_In. split.
  - by intros (i & Hin & ->%Nat.eqb_eq).
  - intros Hin. exists index. by rewrite Nat.eqb_refl.
Qed.

Lemma includes_toggle (selected : list nat) (pressed index : nat) :
  includes (toggle selected pressed) index
  = if Nat.eqb pressed index then negb (includes selected pressed)
    else includes selected index.
Proof.
  apply eq_true_iff_eq. rewrite includes_elem_of. unfold toggle.
  destruct (includes selected pressed) eqn:Hpressed.
  - rewrite list_elem_of_In, filter_In, <- list_elem_of_In, <- includes_elem_of.
    destruct (Nat.eqb_spec pressed index) as [<- | Hother]; simpl.
    + rewrite Nat.eqb_refl. simpl. intuition congruence.
    + rewrite negb_true_iff. split; [tauto |]. intros Hin. split; [done |].
      apply Nat.eqb_neq. congruence.
  - rewrite elem_of_app, list_elem_of_singleton, <- includes_elem_of.
    destruct (Nat.eqb_spec pressed index) as [<- | Hother]; simpl.
    + rewrite Hpressed. intuition congruence.
    + intuition congruence.
Qed.

(** X12: pressing an item flips its own check mark and leaves the check mark of
    every other item as it was. *)
Theorem press_flips_one_check_mark (current : list nat) (item other : Credential)
    (index position : nat) :
  selected (renderItem (onSelect (renderItem current item index)) other position)
  = if Nat.eqb index position then negb (selected (renderItem current item index))
    else selected (renderItem current other position).
Proof. unfold renderItem. cbn [selected onSelect]. apply includes_toggle. Qed.

(** A selection without repetition stays without repetition when an item is
    pressed. *)
Lemma toggle_NoDup (current : list nat) (index : nat) :
  NoDup current → NoDup (toggle current index).
Proof.
  intros Hcurrent. unfold toggle.
  destruct (includes current index) eqn:Hindex.
  - by apply NoDup_ListNoDup, List.NoDup_filter, NoDup_ListNoDup.
  - apply NoDup_app. split; [done |]. split; [| apply NoDup_singleton].
    intros i Hi ->%list_elem_of_singleton.
    apply includes_elem_of in Hi. congruence.
Qed.

(** X13: the selection never holds an index twice, whatever was pressed since the
    screen was opened. *)
Theorem pressed_NoDup (presses : list nat) : NoDup (pressed presses).
Proof.
  unfold pressed. generalize (NoDup_nil_2 (A := nat)).
  generalize (@nil nat) as current.
  induction presses as [|index presses IH]; intros current Hcurrent; simpl; [done |].
  apply IH. by apply toggle_NoDup.
Qed.


(** X15: pressing an item twice gives back the same selected items, when the
    selection holds no index twice; the item pressed moves to the end if it
    was selected. *)
Theorem toggle_twice_same_items (current : list nat) (index : nat) :
  NoDup current → toggle (toggle current index) index ≡ₚ current.
Proof.
  intros Hcurrent. apply NoDup_Permutation; [| done |].
  - by do 2 apply toggle_NoDup.
  - intros i. rewrite <- !includes_elem_of, !includes_toggle.
    destruct (Nat.eqb_spec index i) as [<- | Hother]; [| done].
    rewrite Nat.eqb_refl. by rewrite negb_involutive.
Qed.

(** ** The keys of the list *)

Lemma occurs_app (c : ascii) (a b : string) :
  occurs c (a +:+ b) = occurs c a || occurs c b.
Proof.
  induction a as [|c' a IH]; simpl; [done |]. by rewrite IH, orb_assoc.
Qed.

Lemma pretty_N_char_digit (x : N) : (x < 10)%N → pretty_N_char x ≠ "-"%char.
Proof.
  intros Hx.
  assert (x = 0 ∨ x = 1 ∨ x = 2 ∨ x = 3 ∨ x = 4 ∨ x = 5 ∨ x = 6 ∨ x = 7
          ∨ x = 8 ∨ x = 9)%N as Hcases by lia.
  repeat (destruct Hcases as [-> | Hcases]; [done |]). by subst.
Qed.

Lemma pretty_N_go_dashless (x : N) (s : string) :
  occurs "-" s = false → occurs "-" (pretty_N_go x s) = false.
Proof.
  revert s. induction (N.lt_wf_0 x) as [x _ IH]. intros s Hs.
  destruct (decide (x = 0)%N) as [-> | Hpositive].
  - by rewrite pretty_N_go_0.
  - rewrite pretty_N_go_step by lia. apply IH.
    + apply N.div_lt; lia.
    + cbn [occurs]. rewrite Hs, orb_false_r. apply Ascii.eqb_neq.
      intros Hdash. symmetry in Hdash. revert Hdash.
      apply pretty_N_char_digit, N.mod_lt. lia.
Qed.

Lemma pretty_nat_dashless (n : nat) : occurs "-" (pretty n) = false.
Proof.
  unfold pretty, pretty_nat, pretty, pretty_N.
  case_decide; [done |]. by apply pretty_N_go_dashless.
Qed.

Lemma split_at_dash (a b rest rest' : string) :
  occurs "-" a = false → occurs "-" b = false →
  a +:+ "-" +:+ rest = b +:+ "-" +:+ rest' →
  a = b ∧ rest = rest'.
Proof.
  revert b. induction a as [|c a IH]; intros [|c' b] Ha Hb Heq;
    cbn [occurs] in Ha, Hb;
    lazy beta iota delta [String.append] in Heq; fold String.append in Heq.
  - by injection Heq as ->.
  - injection Heq as <- _. by rewrite Ascii.eqb_refl in Hb.
  - injection Heq as -> _. by rewrite Ascii.eqb_refl in Ha.
  - apply orb_false_iff in Ha as [_ Ha], Hb as [_ Hb].
    injection Heq as -> Hrest. by destruct (IH b Ha Hb Hrest) as [-> ->].
Qed.

(** X16: two rows get the same key only if they are at the same index and show
    credentials with the same identifier: within one list every key is
    different, also when credentials share an identifier. *)
Theorem keyExtractor_inj (item other : Credential) (index position : nat) :
  keyExtractor item index = keyExtractor other position →
  index = position ∧ id item = id other.
Proof.
  unfold keyExtractor. intros Hkey.
  apply split_at_dash in Hkey as [Hindex Hid]; try apply pretty_nat_dashless.
  split; [| done]. by apply (inj pretty).
Qed.

(** X15 at a selection of three items, the second of which is pressed
    twice. *)
Lemma toggle_twice_same_items_witness :
  NoDup [4; 1; 7] ∧ toggle (toggle [4; 1; 7] 1) 1 = [4; 7; 1]
  ∧ toggle (toggle [4; 1; 7] 1) 1 ≡ₚ [4; 1; 7].
Proof.
  assert (Hselection : NoDup [4; 1; 7]) by (apply (bool_decide_unpack _); by vm_compute).
  split; [exact Hselection |]. split; [reflexivity |].
  exact (toggle_twice_same_items [4; 1; 7] 1 Hselection).
Defined.

(** X16 at two credentials with one identifier, shown in the same row. *)
Lemma keyExtractor_inj_witness :
  let item :=
    {| id := "urn:uuid:1"; credentialSubject := {| hasCredential := None |};
       issuer := IssuerId "did:example:issuer" |} in
  let other :=
    {| id := "urn:uuid:1"; credentialSubject := {| hasCredential := None |};
       issuer := IssuerRef {| issuer_id := "did:example:issuer"; issuer_name := None |} |} in
  keyExtractor item 12 = "12-urn:uuid:1"
  ∧ keyExtractor item 12 = keyExtractor other 12
  ∧ id item = id other.
Proof.
  intros item other.
  assert (Hkey : keyExtractor item 12 = keyExtractor other 12) by (vm_compute; reflexivity).
  split; [vm_compute; reflexivity |]. split; [exact Hkey |].
  exact (proj2 (keyExtractor_inj item other 12 12 Hkey)).
Defined.

End ShareScreenProps.
